(** * store_repo_structure.py: URL extraction and the repository URL index

    A shallow embedding of [extract_urls] / [collect_urls] and of
    [get_repository_urls] from [src/store_repo_structure.py], and the
    properties the specification states about them.

    Conventions of the embedding:
    - a Python value is a finite tree ([value]); the classes the traversal
      tells apart with [isinstance] are constructors of their own, every
      other class is [VOther];
    - the closure variable [urls] (a Python [set]) is a [gset string] that
      [collect_urls] receives and returns: explicit state passing;
    - an exception is a value of [exn]; a call either returns ([Ok]) or
      raises ([Raise]);
    - every call of [collect_urls] takes one interpreter frame; [frames] is
      the number of frames the interpreter still grants (CPython's recursion
      limit minus the frames already on the stack). *)

From Stdlib Require Import String List ZArith Lia.
From stdpp Require Import base option list gmap sets strings.

Local Open Scope string_scope.

(** ** Python values *)

(** The values [collect_urls] can meet.  A [dict] keeps its entries in
    insertion order, which is the order [item.values()] iterates in; keys are
    strings, as in a BSON document.  [VOther cls] is an instance of any
    class that is not [str], [list] or [dict] and has no constructor of its
    own here ([float], [tuple], [ObjectId], [datetime], a class of the
    caller); the traversal never looks inside one. *)
Unset Elimination Schemes.
Inductive value : Type :=
| VNone
| VBool (b : bool)
| VInt (n : Z)
| VStr (s : string)
| VList (items : list value)
| VDict (entries : list (string * value))
| VOther (cls : string).
Set Elimination Schemes.

(** [item.values()] on the entries of a dict. *)
Definition dict_values (entries : list (string * value)) : list value :=
  map snd entries.

(** ** Exceptions and results *)

(** The exceptions that occur; each is a subclass of [Exception]. *)
Inductive exn : Type :=
| RecursionError
| UnboundLocalError (name : string)
| PyMongoError (msg : string).

Inductive result (A : Type) : Type :=
| Ok (a : A)
| Raise (e : exn).

Arguments Ok {A} a.
Arguments Raise {A} e.

Definition bind {A B : Type} (r : result A) (k : A -> result B) : result B :=
  match r with
  | Ok a => k a
  | Raise e => Raise e
  end.

Notation "x <- r ;; k" := (bind r (fun x => k))
  (at level 100, r at next level, right associativity).

(** [str(e)], as the f-string of the handler formats it. *)
Definition exn_str (e : exn) : string :=
  match e with
  | RecursionError => "maximum recursion depth exceeded"
  | UnboundLocalError name =>
      "cannot access local variable '" +:+ name +:+
      "' where it is not associated with a value"
  | PyMongoError msg => msg
  end.

(** ** extract_urls *)

Definition url_prefix : string := "https://".

(** [item.startswith('https://')] *)
Definition startswith (item pre : string) : bool := String.prefix pre item.

(** [for x in xs: body(x)], the body updating [urls]; the first exception
    leaves the loop. *)
Fixpoint for_each (body : value -> gset string -> result (gset string))
    (xs : list value) (urls : gset string) : result (gset string) :=
  match xs with
  | [] => Ok urls
  | x :: rest => urls' <- body x urls ;; for_each body rest urls'
  end.

(** The inner function of [extract_urls].  The three branches are the
    [if] / [elif] / [elif] of the source; a string without the prefix fails
    the first test and then the two [isinstance] tests, so nothing happens,
    as for every value that is neither [str], [list] nor [dict]. *)
Fixpoint collect_urls (frames : nat) (item : value) (urls : gset string)
    : result (gset string) :=
  match frames with
  | O => Raise RecursionError
  | S frames' =>
      match item with
      | VStr s =>
          if startswith s url_prefix then Ok ({[ s ]} ∪ urls) else Ok urls
      | VList items => for_each (collect_urls frames') items urls
      | VDict entries =>
          for_each (collect_urls frames') (dict_values entries) urls
      | _ => Ok urls
      end
  end.

(** [urls = set(); collect_urls(structure); return list(urls)] *)
Definition extract_urls (frames : nat) (structure : value)
    : result (list string) :=
  urls <- collect_urls frames structure ∅ ;; Ok (elements urls).

(** ** get_repository_urls *)

(** A document of the collection: the two fields the code reads, [repo] a
    string as the documents of the collection have it.  [None] is an absent
    field. *)
Record document : Type := Document {
  repo : option string;
  structure : option value
}.

(** [repo_doc.get('repo', 'Unknown')] *)
Definition repo_name (repo_doc : document) : string :=
  default "Unknown" (repo repo_doc).

(** What the database collaborator does during one call:
    [MongoClient(mongodb_uri)] raises; or the client is built and the query
    ([client[database][collection].find()]) raises; or the cursor yields
    documents and then either is exhausted or raises. *)
Inductive retrieval : Type :=
| ConnectRaises (e : exn)
| FindRaises (e : exn)
| Cursor (docs : list document) (fault : option exn).

(** The [for repo_doc in repositories] loop over the documents the cursor
    yields, updating the dict [repository_urls]. *)
Fixpoint index_documents (frames : nat) (docs : list document)
    (fault : option exn) (repository_urls : gmap string (list string))
    : result (gmap string (list string)) :=
  match docs with
  | [] =>
      match fault with
      | None => Ok repository_urls
      | Some e => Raise e
      end
  | repo_doc :: rest =>
      match structure repo_doc with
      | Some s =>
          urls <- extract_urls frames s ;;
          index_documents frames rest fault
            (<[ repo_name repo_doc := urls ]> repository_urls)
      | None => index_documents frames rest fault repository_urls
      end
  end.

(** How a call ends: with a returned index, or with an exception that leaves
    the function. *)
Inductive outcome : Type :=
| Returned (repository_urls : gmap string (list string))
| Escaped (e : exn).

(** The body of the [try]: the binding of the local [client] ([true] when
    [MongoClient(mongodb_uri)] returned) and the result of the block. *)
Definition try_body (frames : nat) (db : retrieval)
    : bool * result (gmap string (list string)) :=
  match db with
  | ConnectRaises e => (false, Raise e)
  | FindRaises e => (true, Raise e)
  | Cursor docs fault => (true, index_documents frames docs fault ∅)
  end.

(** [except Exception as e]: every [exn] is an [Exception]; the handler
    prints and returns the empty dict. *)
Definition except_handler (r : result (gmap string (list string)))
    : gmap string (list string) * list string :=
  match r with
  | Ok repository_urls => (repository_urls, [])
  | Raise e => (∅, ["Error retrieving repository URLs: " +:+ exn_str e])
  end.

(** [finally: client.close()]: reading the local [client] raises when it was
    never bound, and that exception replaces the pending [return]. *)
Definition finally_close (client_bound : bool)
    (pending : gmap string (list string)) : outcome :=
  if client_bound then Returned pending
  else Escaped (UnboundLocalError "client").

(** The outcome of the call and the lines it printed.  [frames] is the
    budget each call of [extract_urls] in the loop finds. *)
Definition get_repository_urls (frames : nat) (db : retrieval)
    : outcome * list string :=
  let '(client_bound, r) := try_body frames db in
  let '(pending, printed) := except_handler r in
  (finally_close client_bound pending, printed).

(** ** The dict [repository_urls] in insertion order *)

(** The index above is the dict as a mapping.  [items()] lists a dict in
    insertion order, which the console output and the report follow; the
    definitions below keep that order: a dict is the list of its items,
    oldest key first. *)

(** [d[k] = v]: an existing key keeps its place and takes the new value, a
    new key goes to the end. *)
Fixpoint dict_setitem (k : string) (v : list string)
    (items : list (string * list string)) : list (string * list string) :=
  match items with
  | [] => [(k, v)]
  | (k', v') :: rest =>
      if decide (k' = k) then (k, v) :: rest
      else (k', v') :: dict_setitem k v rest
  end.

(** The loop of [get_repository_urls], as [index_documents], on the ordered
    dict. *)
Fixpoint index_items (frames : nat) (docs : list document)
    (fault : option exn) (repository_urls : list (string * list string))
    : result (list (string * list string)) :=
  match docs with
  | [] =>
      match fault with
      | None => Ok repository_urls
      | Some e => Raise e
      end
  | repo_doc :: rest =>
      match structure repo_doc with
      | Some s =>
          urls <- extract_urls frames s ;;
          index_items frames rest fault
            (dict_setitem (repo_name repo_doc) urls repository_urls)
      | None => index_items frames rest fault repository_urls
      end
  end.

(** How a call ends, for any type of returned value. *)
Inductive ending (A : Type) : Type :=
| Returns (a : A)
| Leaves (e : exn).

Arguments Returns {A} a.
Arguments Leaves {A} e.

(** [get_repository_urls] with the returned dict in insertion order: the
    [try] block, the handler and the [finally] clause as above. *)
Definition get_repository_urls_ordered (frames : nat) (db : retrieval)
    : ending (list (string * list string)) * list string :=
  let '(client_bound, r) :=
    match db with
    | ConnectRaises e => (false, Raise e)
    | FindRaises e => (true, Raise e)
    | Cursor docs fault => (true, index_items frames docs fault [])
    end in
  let '(pending, printed) :=
    match r with
    | Ok repository_urls => (repository_urls, [])
    | Raise e => ([], ["Error retrieving repository URLs: " +:+ exn_str e])
    end in
  (if client_bound then Returns pending
   else Leaves (UnboundLocalError "client"), printed).

(** ** save_urls_to_file *)

(** The line feed the report lines end with. *)
Definition newline : string := String (Ascii.ascii_of_nat 10) EmptyString.

(** What the file system does during one call: [open(output_file, 'w')]
    raises; or the file opens and, of the calls of [f.write], the first
    [n] succeed and the next one raises; or every call succeeds.  [msg] is
    [str(e)] of the exception raised. *)
Inductive disk : Type :=
| OpenRaises (msg : string)
| WriteRaises (n : nat) (msg : string)
| Writable.

(** The open file: the texts written so far, oldest first, and the number
    of calls of [f.write] that will still succeed ([None]: all). *)
Record file : Type := File {
  written : list string;
  budget : option nat
}.

(** [f.write(text)]; [false] when the call raises. *)
Definition file_write (text : string) (f : file) : bool * file :=
  match budget f with
  | Some O => (false, f)
  | Some (S n) => (true, File (written f ++ [text]) (Some n))
  | None => (true, File (written f ++ [text]) None)
  end.

(** One statement after another inside the [with] block: an exception
    skips what follows. *)
Definition and_then (r : bool * file) (k : file -> bool * file)
    : bool * file :=
  if fst r then k (snd r) else r.

(** [for url in urls: f.write(f"- {url}\n")] *)
Fixpoint write_urls (urls : list string) (f : file) : bool * file :=
  match urls with
  | [] => (true, f)
  | url :: rest =>
      and_then (file_write ("- " +:+ url +:+ newline) f) (write_urls rest)
  end.

(** [for repo, urls in repository_urls.items(): ...] *)
Fixpoint write_report (items : list (string * list string)) (f : file)
    : bool * file :=
  match items with
  | [] => (true, f)
  | (repo, urls) :: rest =>
      and_then (file_write ("Repository: " +:+ repo +:+ newline) f)
        (fun f1 =>
           and_then (write_urls urls f1)
             (fun f2 =>
                and_then (file_write newline f2) (write_report rest)))
  end.

(** The file as [open] leaves it: truncated, with the budget of the disk. *)
Definition open_for_writing (dk : disk) : option file :=
  match dk with
  | OpenRaises _ => None
  | WriteRaises n _ => Some (File [] (Some n))
  | Writable => Some (File [] None)
  end.

(** [str(e)] of the exception the disk raises. *)
Definition disk_message (dk : disk) : string :=
  match dk with
  | OpenRaises msg => msg
  | WriteRaises _ msg => msg
  | Writable => ""
  end.

(** The texts written to [output_file] ([None] when the file was not
    opened, and so not touched) and the lines printed. *)
Definition save_urls_to_file (dk : disk)
    (repository_urls : list (string * list string)) (output_file : string)
    : option (list string) * list string :=
  match open_for_writing dk with
  | None => (None, ["Error saving URLs to file: " +:+ disk_message dk])
  | Some f =>
      let '(ok, f') := write_report repository_urls f in
      (Some (written f'),
       [if ok then "URLs saved to " +:+ output_file
        else "Error saving URLs to file: " +:+ disk_message dk])
  end.

(** ** main *)

(** [if not mongodb_uri] is taken for an unset variable and for the empty
    string. *)
Definition is_set (mongodb_uri : option string) : bool :=
  match mongodb_uri with
  | Some (String _ _) => true
  | _ => false
  end.

(** The [print] calls of the loop of [main], one line each. *)
Fixpoint console_lines (items : list (string * list string)) : list string :=
  match items with
  | [] => []
  | (repo, urls) :: rest =>
      ("Repository: " +:+ repo) :: map (fun url => "- " +:+ url) urls
      ++ console_lines rest
  end.

(** One run of the program: the uncaught exception, if any; the lines
    printed; the texts written to the report file ([None]: not touched). *)
Record run : Type := Run {
  uncaught : option exn;
  stdout : list string;
  report : option (list string)
}.

(** [main], given the value of [MONGODB_URI] in the environment and what
    the database and the file system do. *)
Definition main (frames : nat) (mongodb_uri : option string)
    (db : retrieval) (dk : disk) : run :=
  if is_set mongodb_uri then
    match get_repository_urls_ordered frames db with
    | (Leaves e, printed) => Run (Some e) printed None
    | (Returns [], printed) => Run None printed None
    | (Returns repository_urls, printed) =>
        let '(saved, status) :=
          save_urls_to_file dk repository_urls "repository_urls.txt" in
        Run None (printed ++ console_lines repository_urls ++ status) saved
    end
  else Run None ["Error: MONGODB_URI environment variable not set"] None.

(** ** Notions the specification speaks about *)

(** The height of a list of subtrees whose heights are [ds]: one level above
    the highest of them, and [0] when there is none. *)
Definition levels (ds : list nat) : nat :=
  fold_right (fun d m => Nat.max (S d) m) 0 ds.

(** Nesting depth of a value: the greatest number of containers (lists and
    dicts) that enclose one of its elements.  A scalar and an empty container
    enclose nothing and have depth [0]. *)
Fixpoint nesting_depth (v : value) : nat :=
  match v with
  | VList items => levels (map nesting_depth items)
  | VDict entries =>
      levels (map (fun kv : string * value => nesting_depth (snd kv)) entries)
  | _ => 0
  end.

(** [reachable st v]: the value [v] occurs in [st] at the root, or below it
    through list elements and dict values.  Dict keys are not reachable. *)
Inductive reachable : value -> value -> Prop :=
| reach_root v : reachable v v
| reach_element items x v :
    x ∈ items -> reachable x v -> reachable (VList items) v
| reach_value entries k x v :
    (k, x) ∈ entries -> reachable x v -> reachable (VDict entries) v.

(** The set the specification describes, by recursion on the tree: the
    strings with the prefix, joined over elements and dict values. *)
Fixpoint url_set (v : value) : gset string :=
  match v with
  | VStr s => if startswith s url_prefix then {[ s ]} else ∅
  | VList items => ⋃ (map url_set items)
  | VDict entries =>
      ⋃ (map (fun kv : string * value => url_set (snd kv)) entries)
  | _ => ∅
  end.

(** A value with every instance of a foreign class replaced by [None]. *)
Fixpoint without_foreign (v : value) : value :=
  match v with
  | VOther _ => VNone
  | VList items => VList (map without_foreign items)
  | VDict entries =>
      VDict (map (fun kv : string * value =>
                    (fst kv, without_foreign (snd kv))) entries)
  | _ => v
  end.

(** A value with every dict key [k], at every level, replaced by [f k]. *)
Fixpoint rename_keys (f : string -> string) (v : value) : value :=
  match v with
  | VList items => VList (map (rename_keys f) items)
  | VDict entries =>
      VDict (map (fun kv : string * value =>
                    (f (fst kv), rename_keys f (snd kv))) entries)
  | _ => v
  end.

(** A document whose structure, when it has one, fits the frame budget. *)
Definition shallow (frames : nat) (d : document) : Prop :=
  match structure d with
  | Some s => nesting_depth s < frames
  | None => True
  end.

(** The URL list [extract_urls] returns for a document, when the document
    has a structure and the extraction returns. *)
Definition document_urls (frames : nat) (d : document)
    : option (list string) :=
  match structure d with
  | Some s =>
      match extract_urls frames s with
      | Ok urls => Some urls
      | Raise _ => None
      end
  | None => None
  end.

(** ** Sample inputs *)

(** [{"a": "https://x.com", "b": {"c": "https://x.com"}}] *)
Definition twice_reachable : value :=
  VDict [("a", VStr "https://x.com");
         ("b", VDict [("c", VStr "https://x.com")])].

(** [["https://a.com", ["https://b.com", {"k": "https://c.com"}]]] *)
Definition nested_list : value :=
  VList [VStr "https://a.com";
         VList [VStr "https://b.com"; VDict [("k", VStr "https://c.com")]]].

(** [{"https://key.com": [ObjectId(..), "ftp://x", 7, "https://v.com"]}] *)
Definition mixed_leaves : value :=
  VDict [("https://key.com",
          VList [VOther "ObjectId"; VStr "ftp://x"; VInt 7;
                 VStr "https://v.com"])].

(** Documents of one repository ["a"]: two with a structure and one
    without; a document without a name whose structure holds no URL; and a
    document of another repository without a structure. *)
Definition doc_a_old : document :=
  Document (Some "a") (Some (VStr "https://old.com")).
Definition doc_a_new : document :=
  Document (Some "a") (Some (VList [VStr "https://new.com"])).
Definition doc_a_bare : document := Document (Some "a") None.
Definition doc_unnamed : document := Document None (Some (VDict [])).
Definition doc_b_bare : document := Document (Some "b") None.

(** [startswith] on the literals of the specification. *)
Definition startswith_samples : list bool :=
  [startswith "https://plain.com" url_prefix;
   startswith "https://" url_prefix;
   startswith "not a url" url_prefix;
   startswith "http://x.com" url_prefix;
   startswith "HTTPS://x.com" url_prefix;
   startswith "https:/" url_prefix;
   startswith "" url_prefix].

(** ** Notions of the further properties *)

(** Two results of [extract_urls] agree: both raise the same exception, or
    both return the same strings, in any order. *)
Definition same_urls (r r' : result (list string)) : Prop :=
  match r, r' with
  | Ok l, Ok l' => l ≡ₚ l'
  | Raise e, Raise e' => e = e'
  | _, _ => False
  end.

(** The names of the documents that have a structure, in document order. *)
Definition indexed_names (docs : list document) : list string :=
  map repo_name (filter (fun d => is_Some (structure d)) docs).

(** A list of names with only the first occurrence of each kept. *)
Fixpoint first_occurrences (names : list string) : list string :=
  match names with
  | [] => []
  | n :: rest => n :: filter (fun m => m <> n) (first_occurrences rest)
  end.

(** The report as the lines the console shows: for each repository its
    console lines, each ended by a line feed, and one empty line. *)
Fixpoint report_texts (items : list (string * list string)) : list string :=
  match items with
  | [] => []
  | item :: rest =>
      map (fun line => line +:+ newline) (console_lines [item])
      ++ newline :: report_texts rest
  end.

(** The flag and the file after [f.write(t)] for each of [texts] in turn:
    all of them are written when the budget allows, and otherwise the
    first [n], [n] being the budget, before the next call raises. *)
Definition after_writes (texts : list string) (f : file) : bool * file :=
  match budget f with
  | None => (true, File (written f ++ texts) None)
  | Some n =>
      if decide (length texts <= n)
      then (true, File (written f ++ texts) (Some (n - length texts)))
      else (false, File (written f ++ take n texts) (Some 0))
  end.

(** The dict of two repositories, the first with two URLs. *)
Definition two_repositories : list (string * list string) :=
  [("a", ["https://a.com/1"; "https://a.com/2"]); ("b", ["https://b.com"])].

Definition doc_b : document :=
  Document (Some "b") (Some (VList [VStr "https://b.com"; VStr "x"])).
Definition doc_c : document :=
  Document (Some "c") (Some (VDict [("u", VStr "https://c.com")])).

(** ** Induction on values *)

Section ValueInduction.
Variable P : value -> Prop.
Hypothesis case_none : P VNone.
Hypothesis case_bool : forall b, P (VBool b).
Hypothesis case_int : forall n, P (VInt n).
Hypothesis case_str : forall s, P (VStr s).
Hypothesis case_list : forall items, Forall P items -> P (VList items).
Hypothesis case_dict :
  forall entries, Forall (fun kv => P (snd kv)) entries -> P (VDict entries).
Hypothesis case_other : forall cls, P (VOther cls).

Fixpoint value_ind (v : value) : P v :=
  let fix elements_ok (xs : list value) : Forall P xs :=
    match xs with
    | [] => List.Forall_nil P
    | x :: rest => List.Forall_cons P x rest (value_ind x) (elements_ok rest)
    end in
  let fix values_ok (es : list (string * value))
      : Forall (fun kv => P (snd kv)) es :=
    match es with
    | [] => List.Forall_nil _
    | e :: rest =>
        List.Forall_cons (fun kv => P (snd kv)) e rest
          (value_ind (snd e)) (values_ok rest)
    end in
  match v with
  | VNone => case_none
  | VBool b => case_bool b
  | VInt n => case_int n
  | VStr s => case_str s
  | VList items => case_list items (elements_ok items)
  | VDict entries => case_dict entries (values_ok entries)
  | VOther cls => case_other cls
  end.
End ValueInduction.

(** ** The traversal computes [url_set] within the frame budget *)

Lemma levels_cons d ds : levels (d :: ds) = Nat.max (S d) (levels ds).
Proof. reflexivity. Qed.

Lemma nesting_depth_dict entries :
  nesting_depth (VDict entries)
  = levels (map nesting_depth (dict_values entries)).
Proof. unfold dict_values. simpl. by rewrite map_map. Qed.

Lemma url_set_dict entries :
  url_set (VDict entries) = ⋃ (map url_set (dict_values entries)).
Proof. unfold dict_values. simpl. by rewrite map_map. Qed.

(** A loop whose body adds [f x] when [x] is at most [n - 1] deep and raises
    otherwise: the loop adds the union when the whole list is at most [n]
    deep, and raises otherwise. *)
Lemma for_each_spec n body f xs :
  (forall x urls,
     body x urls = if decide (nesting_depth x < n) then Ok (f x ∪ urls)
                   else Raise RecursionError) ->
  forall urls,
    for_each body xs urls
    = if decide (levels (map nesting_depth xs) < S n)
      then Ok (⋃ (map f xs) ∪ urls) else Raise RecursionError.
Proof.
  intros Hbody. induction xs as [|x rest IH]; intros urls.
  - cbn [for_each map]. rewrite decide_True by (cbn; lia).
    cbn [union_list foldr]. by rewrite union_empty_l_L.
  - cbn [for_each map]. rewrite levels_cons, Hbody.
    destruct (decide (nesting_depth x < n)) as [Hx|Hx].
    + cbn [bind]. rewrite IH.
      destruct (decide (levels (map nesting_depth rest) < S n)).
      * rewrite decide_True by lia. cbn [union_list foldr].
        by rewrite (assoc_L (∪)), (comm_L (∪) _ (f x)).
      * rewrite decide_False by lia. reflexivity.
    + cbn [bind]. rewrite decide_False by lia. reflexivity.
Qed.

Lemma collect_urls_spec frames :
  forall item urls,
    collect_urls frames item urls
    = if decide (nesting_depth item < frames) then Ok (url_set item ∪ urls)
      else Raise RecursionError.
Proof.
  induction frames as [|n IH]; intros item urls.
  - cbn [collect_urls]. destruct (decide _); [lia | reflexivity].
  - destruct item as [| b | z | s | items | entries | cls];
      try (cbn [collect_urls nesting_depth url_set];
           rewrite decide_True by lia; by rewrite union_empty_l_L).
    + cbn [collect_urls nesting_depth url_set]. rewrite decide_True by lia.
      destruct (startswith s url_prefix); [done | by rewrite union_empty_l_L].
    + cbn [collect_urls]. rewrite (for_each_spec n _ url_set) by exact IH.
      reflexivity.
    + cbn [collect_urls]. rewrite (for_each_spec n _ url_set) by exact IH.
      rewrite nesting_depth_dict, url_set_dict. reflexivity.
Qed.

Lemma extract_urls_spec frames st :
  extract_urls frames st
  = if decide (nesting_depth st < frames) then Ok (elements (url_set st))
    else Raise RecursionError.
Proof.
  unfold extract_urls. rewrite collect_urls_spec.
  destruct (decide (nesting_depth st < frames)); [|reflexivity].
  cbn [bind]. by rewrite union_empty_r_L.
Qed.

Lemma extract_urls_shallow frames st :
  nesting_depth st < frames ->
  extract_urls frames st = Ok (elements (url_set st)).
Proof. intros H. rewrite extract_urls_spec. by rewrite decide_True. Qed.

Example startswith_on_samples :
  startswith_samples = [true; true; false; false; false; false; false].
Proof. reflexivity. Qed.

(** Keys, foreign objects, numbers and strings without the prefix are left
    out. *)
Example extract_urls_mixed_leaves :
  extract_urls 3 mixed_leaves = Ok ["https://v.com"].
Proof. vm_compute. reflexivity. Qed.

(** ** [url_set] is the set of reachable URL strings *)

Lemma elem_of_url_set_elements u items :
  u ∈ ⋃ (map url_set items) <-> exists x, x ∈ items /\ u ∈ url_set x.
Proof.
  rewrite elem_of_union_list. split.
  - intros (X & HX & Hu). apply list_elem_of_fmap in HX as (x & -> & Hx). eauto.
  - intros (x & Hx & Hu). exists (url_set x). split; [|done].
    apply list_elem_of_fmap. eauto.
Qed.

Lemma url_set_reachable u st :
  u ∈ url_set st <-> reachable st (VStr u) /\ startswith u url_prefix = true.
Proof.
  split.
  - revert u. induction st as [| b | z | s | items IH | entries IH | cls]
      using value_ind; intros u Hu; try (simpl in Hu; set_solver).
    + simpl in Hu. destruct (startswith s url_prefix) eqn:Hs; [|set_solver].
      apply elem_of_singleton in Hu as ->. split; [constructor | done].
    + simpl in Hu. apply elem_of_url_set_elements in Hu as (x & Hx & Hu).
      rewrite Forall_forall in IH. destruct (IH x Hx u Hu) as [Hr Hp].
      split; [|done]. by apply reach_element with x.
    + rewrite url_set_dict in Hu.
      apply elem_of_url_set_elements in Hu as (x & Hx & Hu).
      unfold dict_values in Hx. apply list_elem_of_fmap in Hx as ([k x'] & -> & Hkx).
      rewrite Forall_forall in IH. destruct (IH (k, x') Hkx u Hu) as [Hr Hp].
      split; [|done]. by apply reach_value with k x'.
  - intros [Hr Hp]. remember (VStr u) as leaf eqn:Hleaf.
    induction Hr as [v | items x v Hx Hr IH | entries k x v Hkx Hr IH]; subst.
    + simpl. rewrite Hp. set_solver.
    + simpl. apply elem_of_url_set_elements. eauto.
    + rewrite url_set_dict. apply elem_of_url_set_elements. exists x.
      split; [|auto]. unfold dict_values. apply list_elem_of_fmap.
      by exists (k, x).
Qed.

(** Foreign objects and dict keys have no part in [url_set] or in the
    depth. *)

Lemma url_set_without_foreign v : url_set (without_foreign v) = url_set v.
Proof.
  induction v as [| b | z | s | items IH | entries IH | cls] using value_ind;
    try reflexivity.
  - simpl. rewrite map_map. f_equal. apply map_ext_Forall. exact IH.
  - simpl. rewrite map_map. f_equal. apply map_ext_Forall. exact IH.
Qed.

Lemma nesting_depth_without_foreign v :
  nesting_depth (without_foreign v) = nesting_depth v.
Proof.
  induction v as [| b | z | s | items IH | entries IH | cls] using value_ind;
    try reflexivity.
  - simpl. rewrite map_map. f_equal. apply map_ext_Forall. exact IH.
  - simpl. rewrite map_map. f_equal. apply map_ext_Forall. exact IH.
Qed.

Lemma url_set_rename_keys f v : url_set (rename_keys f v) = url_set v.
Proof.
  induction v as [| b | z | s | items IH | entries IH | cls] using value_ind;
    try reflexivity.
  - simpl. rewrite map_map. f_equal. apply map_ext_Forall. exact IH.
  - simpl. rewrite map_map. f_equal. apply map_ext_Forall. exact IH.
Qed.

Lemma nesting_depth_rename_keys f v :
  nesting_depth (rename_keys f v) = nesting_depth v.
Proof.
  induction v as [| b | z | s | items IH | entries IH | cls] using value_ind;
    try reflexivity.
  - simpl. rewrite map_map. f_equal. apply map_ext_Forall. exact IH.
  - simpl. rewrite map_map. f_equal. apply map_ext_Forall. exact IH.
Qed.

(** ** The indexing loop *)

Lemma index_documents_app frames pre post fault acc :
  index_documents frames (pre ++ post) fault acc
  = (idx <- index_documents frames pre None acc ;;
     index_documents frames post fault idx).
Proof.
  revert acc. induction pre as [|d pre IH]; intros acc; [reflexivity|].
  cbn [app index_documents]. destruct (structure d) as [s|]; [|apply IH].
  destruct (extract_urls frames s) as [urls|e]; cbn [bind]; [apply IH | done].
Qed.

Lemma index_documents_skip frames pre d post fault acc :
  structure d = None ->
  index_documents frames (pre ++ d :: post) fault acc
  = index_documents frames (pre ++ post) fault acc.
Proof.
  intros Hd. rewrite !index_documents_app. cbn [index_documents].
  by rewrite Hd.
Qed.

Lemma index_documents_shallow frames docs :
  Forall (shallow frames) docs ->
  forall acc, exists idx, index_documents frames docs None acc = Ok idx.
Proof.
  induction 1 as [|d docs Hd _ IH]; intros acc; [by exists acc|].
  cbn [index_documents]. unfold shallow in Hd.
  destruct (structure d) as [s|]; [|apply IH].
  rewrite (extract_urls_shallow _ _ Hd). cbn [bind]. apply IH.
Qed.

(** Documents that are skipped or carry another name leave the entry of [n]
    as it was. *)
Lemma index_documents_untouched frames n docs fault :
  Forall (fun d => structure d = None \/ repo_name d <> n) docs ->
  forall acc idx,
    index_documents frames docs fault acc = Ok idx -> idx !! n = acc !! n.
Proof.
  induction 1 as [|d docs Hd _ IH]; intros acc idx Hrun.
  - cbn [index_documents] in Hrun. destruct fault; congruence.
  - cbn [index_documents] in Hrun. destruct (structure d) as [s|] eqn:Hs.
    + destruct Hd as [Hd|Hd]; [discriminate|].
      destruct (extract_urls frames s) as [urls|e]; [|discriminate].
      cbn [bind] in Hrun. rewrite (IH _ _ Hrun). by apply lookup_insert_ne.
    + by apply IH.
Qed.

(** The loop never removes a key. *)
Lemma index_documents_keeps_keys frames n docs fault :
  forall acc idx,
    index_documents frames docs fault acc = Ok idx ->
    is_Some (acc !! n) -> is_Some (idx !! n).
Proof.
  induction docs as [|d docs IH]; intros acc idx Hrun Hn.
  - cbn [index_documents] in Hrun. destruct fault; congruence.
  - cbn [index_documents] in Hrun. destruct (structure d) as [s|].
    + destruct (extract_urls frames s) as [urls|e]; [|discriminate].
      cbn [bind] in Hrun. apply (IH _ _ Hrun).
      rewrite lookup_insert. case_decide; [by eexists | done].
    + by apply (IH _ _ Hrun).
Qed.

(** Every document with a structure leaves a key behind. *)
Lemma index_documents_adds_key frames docs fault d :
  d ∈ docs -> is_Some (structure d) ->
  forall acc idx,
    index_documents frames docs fault acc = Ok idx ->
    is_Some (idx !! repo_name d).
Proof.
  intros Hin [s Hs]. induction docs as [|d' docs IH]; intros acc idx Hrun.
  - by apply elem_of_nil in Hin.
  - cbn [index_documents] in Hrun. apply elem_of_cons in Hin as [<-|Hin].
    + rewrite Hs in Hrun.
      destruct (extract_urls frames s) as [urls|e]; [|discriminate].
      cbn [bind] in Hrun. apply (index_documents_keeps_keys _ _ _ _ _ _ Hrun).
      rewrite lookup_insert_eq. by eexists.
    + destruct (structure d') as [s'|]; [|by apply (IH Hin acc)].
      destruct (extract_urls frames s') as [urls|e]; [|discriminate].
      cbn [bind] in Hrun. by apply (IH Hin _ _ Hrun).
Qed.

(** Every entry of the index was there before the loop or is the URL list of
    a document of that name. *)
Lemma index_documents_provenance frames n urls docs fault :
  forall acc idx,
    index_documents frames docs fault acc = Ok idx ->
    idx !! n = Some urls ->
    acc !! n = Some urls
    \/ exists d, d ∈ docs /\ repo_name d = n
                 /\ document_urls frames d = Some urls.
Proof.
  induction docs as [|d docs IH]; intros acc idx Hrun Hn.
  - cbn [index_documents] in Hrun. destruct fault; [discriminate|].
    left. congruence.
  - cbn [index_documents] in Hrun. destruct (structure d) as [s|] eqn:Hs.
    + destruct (extract_urls frames s) as [l|e] eqn:Hl; [|discriminate].
      cbn [bind] in Hrun. destruct (IH _ _ Hrun Hn) as [Hacc|(d' & ? & ? & ?)].
      * rewrite lookup_insert in Hacc. case_decide as Hname.
        -- right. exists d. split; [by left|]. split; [done|].
           unfold document_urls. rewrite Hs, Hl. exact Hacc.
        -- by left.
      * right. exists d'. split; [by right | done].
    + destruct (IH _ _ Hrun Hn) as [Hacc|(d' & ? & ? & ?)]; [by left|].
      right. exists d'. split; [by right | done].
Qed.

(** A call whose connection and query succeed ends as its loop ends. *)
Lemma get_repository_urls_cursor frames docs fault :
  get_repository_urls frames (Cursor docs fault)
  = match index_documents frames docs fault ∅ with
    | Ok idx => (Returned idx, [])
    | Raise e =>
        (Returned ∅, ["Error retrieving repository URLs: " +:+ exn_str e])
    end.
Proof.
  unfold get_repository_urls, try_body, except_handler, finally_close.
  by destruct (index_documents frames docs fault ∅).
Qed.

Lemma get_repository_urls_returned frames docs fault idx printed :
  get_repository_urls frames (Cursor docs fault) = (Returned idx, printed) ->
  index_documents frames docs fault ∅ = Ok idx \/ idx = ∅.
Proof.
  rewrite get_repository_urls_cursor.
  destruct (index_documents frames docs fault ∅); intros [= <- _]; auto.
Qed.

(** A fault of the query, or of the cursor after it has yielded documents,
    is caught: the call prints and returns the empty dict. *)
Lemma get_repository_urls_query_failure frames e :
  get_repository_urls frames (FindRaises e)
  = (Returned ∅, ["Error retrieving repository URLs: " +:+ exn_str e]).
Proof. reflexivity. Qed.

Lemma get_repository_urls_iteration_failure frames docs e :
  exists e',
    get_repository_urls frames (Cursor docs (Some e))
    = (Returned ∅, ["Error retrieving repository URLs: " +:+ exn_str e']).
Proof.
  rewrite get_repository_urls_cursor.
  assert (forall acc, exists e',
            index_documents frames docs (Some e) acc = Raise e') as H.
  { induction docs as [|d docs IH]; intros acc; [by exists e|].
    cbn [index_documents]. destruct (structure d) as [s|]; [|apply IH].
    destruct (extract_urls frames s) as [urls|e0]; cbn [bind];
      [apply IH | by exists e0]. }
  destruct (H ∅) as [e' ->]. by exists e'.
Qed.

(** ** Properties of [extract_urls] *)

(** C1: within the frame budget, [extract_urls] returns a list whose members
    are exactly the strings that are reachable in the structure through list
    elements and dict values and start with ["https://"]; dict keys have no
    influence on the result (renaming every key changes nothing), and
    non-string leaves and strings without the prefix are not members. *)
Theorem extract_urls_exact frames st :
  nesting_depth st < frames ->
  exists l,
    extract_urls frames st = Ok l
    /\ (forall u, u ∈ l <->
                  reachable st (VStr u) /\ startswith u url_prefix = true)
    /\ (forall f, extract_urls frames (rename_keys f st) = Ok l).
Proof.
  intros Hd. exists (elements (url_set st)). split; [|split].
  - by apply extract_urls_shallow.
  - intros u. rewrite elem_of_elements. apply url_set_reachable.
  - intros f. rewrite extract_urls_shallow
      by (by rewrite nesting_depth_rename_keys).
    by rewrite url_set_rename_keys.
Qed.

Lemma extract_urls_exact_witness :
  nesting_depth mixed_leaves < 3
  /\ exists l,
       extract_urls 3 mixed_leaves = Ok l
       /\ (forall u, u ∈ l <->
             reachable mixed_leaves (VStr u)
             /\ startswith u url_prefix = true)
       /\ (forall f, extract_urls 3 (rename_keys f mixed_leaves) = Ok l).
Proof.
  split; [vm_compute; lia|].
  apply (extract_urls_exact 3 mixed_leaves). vm_compute; lia.
Defined.

(** C2: within the frame budget, [extract_urls] returns for every value,
    also one that holds instances of classes outside the Structure domain;
    such instances count as scalars that contribute nothing: replacing each
    of them by [None] gives the same list, and a foreign root gives the
    empty list. *)
Theorem extract_urls_total frames v :
  nesting_depth v < frames ->
  exists l,
    extract_urls frames v = Ok l
    /\ extract_urls frames (without_foreign v) = Ok l
    /\ (forall cls, v = VOther cls -> l = []).
Proof.
  intros Hd. exists (elements (url_set v)). split; [|split].
  - by apply extract_urls_shallow.
  - rewrite extract_urls_shallow by (by rewrite nesting_depth_without_foreign).
    by rewrite url_set_without_foreign.
  - intros cls ->. cbn [url_set]. apply elements_empty.
Qed.

Lemma extract_urls_total_witness :
  nesting_depth (VOther "ObjectId") < 1
  /\ exists l,
       extract_urls 1 (VOther "ObjectId") = Ok l
       /\ extract_urls 1 (without_foreign (VOther "ObjectId")) = Ok l
       /\ (forall cls, VOther "ObjectId" = VOther cls -> l = []).
Proof.
  split; [vm_compute; lia|].
  apply (extract_urls_total 1 (VOther "ObjectId")). vm_compute; lia.
Defined.

(** C4: within the frame budget, the list [extract_urls] returns has no
    duplicates, and every URL string reachable in the structure, along
    however many paths, occurs in it exactly once. *)
Theorem extract_urls_no_duplicates frames st :
  nesting_depth st < frames ->
  exists l,
    extract_urls frames st = Ok l
    /\ NoDup l
    /\ (forall u, reachable st (VStr u) -> startswith u url_prefix = true ->
                  count_occ string_dec l u = 1).
Proof.
  intros Hd. exists (elements (url_set st)). split; [|split].
  - by apply extract_urls_shallow.
  - apply NoDup_elements.
  - intros u Hr Hp.
    apply (proj1 (NoDup_count_occ' string_dec _)
             (proj1 (NoDup_ListNoDup _) (NoDup_elements _))).
    apply list_elem_of_In, elem_of_elements, url_set_reachable. done.
Qed.

Lemma extract_urls_no_duplicates_witness :
  nesting_depth twice_reachable < 3
  /\ exists l,
       extract_urls 3 twice_reachable = Ok l
       /\ NoDup l
       /\ (forall u, reachable twice_reachable (VStr u) ->
                     startswith u url_prefix = true ->
                     count_occ string_dec l u = 1).
Proof.
  split; [vm_compute; lia|].
  apply (extract_urls_no_duplicates 3 twice_reachable). vm_compute; lia.
Defined.

(** The example of the specification for C4: the URL under ["a"] and under
    ["b"]["c"] comes out once. *)
Example extract_urls_twice_reachable :
  extract_urls 3 twice_reachable = Ok ["https://x.com"].
Proof. vm_compute. reflexivity. Qed.

(** C7: given at least the frame of the first call, the empty dict, the
    empty list, a string without the prefix and a number all give the empty
    list, and a bare string root with the prefix gives the list of that one
    string. *)
Theorem extract_urls_degenerate frames :
  0 < frames ->
  extract_urls frames (VDict []) = Ok []
  /\ extract_urls frames (VList []) = Ok []
  /\ (forall s, startswith s url_prefix = false ->
                extract_urls frames (VStr s) = Ok [])
  /\ (forall n, extract_urls frames (VInt n) = Ok [])
  /\ (forall s, startswith s url_prefix = true ->
                extract_urls frames (VStr s) = Ok [s]).
Proof.
  intros Hf.
  assert (forall v, nesting_depth v = 0 -> url_set v = ∅ ->
                    extract_urls frames v = Ok []) as Hempty.
  { intros v Hv Hu. rewrite extract_urls_shallow by lia.
    by rewrite Hu, elements_empty. }
  split; [by apply Hempty|]. split; [by apply Hempty|].
  split; [|split].
  - intros s Hs. apply Hempty; [done|]. cbn [url_set]. by rewrite Hs.
  - intros n. by apply Hempty.
  - intros s Hs. rewrite extract_urls_shallow by (cbn; lia).
    cbn [url_set]. by rewrite Hs, elements_singleton.
Qed.

Lemma extract_urls_degenerate_witness :
  0 < 1
  /\ extract_urls 1 (VDict []) = Ok []
  /\ extract_urls 1 (VList []) = Ok []
  /\ extract_urls 1 (VStr "not a url") = Ok []
  /\ extract_urls 1 (VInt 42) = Ok []
  /\ extract_urls 1 (VStr "https://plain.com") = Ok ["https://plain.com"].
Proof.
  split; [lia|].
  destruct (extract_urls_degenerate 1 ltac:(lia)) as (Hd & Hl & Hs & Hn & Hu).
  split; [exact Hd|]. split; [exact Hl|].
  split; [apply Hs; reflexivity|]. split; [exact (Hn 42%Z)|].
  apply Hu; reflexivity.
Defined.

(** C8: within the frame budget, two successive calls on the same structure
    return the same list; the list does not depend on the state of the
    interpreter at the call (any other sufficient frame budget gives it
    too); and the only state the traversal writes, the set [urls], is left
    unchanged by a second traversal of the same structure. *)
Theorem extract_urls_idempotent frames st :
  nesting_depth st < frames ->
  exists l,
    (first <- extract_urls frames st ;;
     second <- extract_urls frames st ;; Ok (first, second)) = Ok (l, l)
    /\ (forall frames', nesting_depth st < frames' ->
                        extract_urls frames' st = Ok l)
    /\ (forall urls urls',
          collect_urls frames st urls = Ok urls' ->
          collect_urls frames st urls' = Ok urls').
Proof.
  intros Hd. exists (elements (url_set st)). split; [|split].
  - by rewrite (extract_urls_shallow _ _ Hd).
  - intros frames' Hd'. by apply extract_urls_shallow.
  - intros urls urls'. rewrite !collect_urls_spec, !decide_True by done.
    intros [= <-]. by rewrite (assoc_L (∪)), (idemp_L (∪)).
Qed.

Lemma extract_urls_idempotent_witness :
  nesting_depth nested_list < 4
  /\ exists l,
       (first <- extract_urls 4 nested_list ;;
        second <- extract_urls 4 nested_list ;; Ok (first, second))
       = Ok (l, l)
       /\ (forall frames', nesting_depth nested_list < frames' ->
                           extract_urls frames' nested_list = Ok l)
       /\ (forall urls urls',
             collect_urls 4 nested_list urls = Ok urls' ->
             collect_urls 4 nested_list urls' = Ok urls').
Proof.
  split; [vm_compute; lia|].
  apply (extract_urls_idempotent 4 nested_list). vm_compute; lia.
Defined.

(** C9: [extract_urls] ends on every value (a value is a finite tree, so
    there is no cycle to detect): it returns when the frame budget exceeds
    the nesting depth of the structure, and raises [RecursionError] when it
    does not.  The deepest chain of calls is therefore the first call plus
    one recursive call per level of nesting. *)
Theorem extract_urls_recursion_depth frames st :
  (nesting_depth st < frames /\ exists l, extract_urls frames st = Ok l)
  \/ (frames <= nesting_depth st
      /\ extract_urls frames st = Raise RecursionError).
Proof.
  rewrite extract_urls_spec.
  destruct (decide (nesting_depth st < frames)); [left | right].
  - split; [done | by eexists].
  - split; [lia | done].
Qed.

(** The two budgets around the depth of [nested_list], which is [3]. *)
Example extract_urls_nested_list :
  nesting_depth nested_list = 3
  /\ extract_urls 4 nested_list
     = Ok ["https://c.com"; "https://a.com"; "https://b.com"]
  /\ extract_urls 3 nested_list = Raise RecursionError.
Proof. vm_compute. auto. Qed.

(** ** Properties of [get_repository_urls] *)

(** C3: when the constructor of the client raises, the handler prints the
    message, but the [finally] clause then reads the unbound local [client]:
    the call does not return the empty dict, an [UnboundLocalError] leaves
    it. *)
Theorem get_repository_urls_connect_failure frames e :
  get_repository_urls frames (ConnectRaises e)
  = (Escaped (UnboundLocalError "client"),
     ["Error retrieving repository URLs: " +:+ exn_str e]).
Proof. reflexivity. Qed.

(** C5, as stated, fails: a later document of the same name that has no
    structure is skipped, and the index keeps the list of the earlier one. *)
Lemma later_document_without_structure :
  repo_name doc_a_old = repo_name doc_a_bare
  /\ exists idx,
       get_repository_urls 1 (Cursor [doc_a_old; doc_a_bare] None)
       = (Returned idx, [])
       /\ idx !! repo_name doc_a_bare = Some ["https://old.com"]
       /\ document_urls 1 doc_a_old = Some ["https://old.com"]
       /\ document_urls 1 doc_a_bare = None.
Proof.
  split; [reflexivity|]. eexists. split; [reflexivity|].
  split; [|split]; vm_compute; reflexivity.
Qed.

(** C5, amended: of the documents that carry one repository name, the index
    keeps the URL list of the last one that has a structure. *)
Theorem last_structured_document_wins frames pre d post s :
  structure d = Some s ->
  Forall (shallow frames) (pre ++ d :: post) ->
  Forall (fun d' => structure d' = None \/ repo_name d' <> repo_name d) post ->
  exists idx urls,
    get_repository_urls frames (Cursor (pre ++ d :: post) None)
    = (Returned idx, [])
    /\ extract_urls frames s = Ok urls
    /\ idx !! repo_name d = Some urls.
Proof.
  intros Hs Hshallow Hpost.
  destruct (index_documents_shallow _ _ Hshallow ∅) as [idx Hrun].
  apply Forall_app in Hshallow as [_ Hd]. apply Forall_cons in Hd as [Hd _].
  unfold shallow in Hd. rewrite Hs in Hd.
  exists idx, (elements (url_set s)).
  split; [by rewrite get_repository_urls_cursor, Hrun|].
  split; [by apply extract_urls_shallow|].
  rewrite index_documents_app in Hrun.
  destruct (index_documents frames pre None ∅) as [idx0|]; [|discriminate].
  cbn [bind index_documents] in Hrun.
  rewrite Hs, (extract_urls_shallow _ _ Hd) in Hrun. cbn [bind] in Hrun.
  rewrite (index_documents_untouched _ _ _ _ Hpost _ _ Hrun).
  apply lookup_insert_eq.
Qed.

Lemma last_structured_document_wins_witness :
  structure doc_a_new = Some (VList [VStr "https://new.com"])
  /\ Forall (shallow 2) ([doc_a_old] ++ doc_a_new :: [doc_a_bare])
  /\ Forall (fun d' => structure d' = None
                       \/ repo_name d' <> repo_name doc_a_new) [doc_a_bare]
  /\ exists idx urls,
       get_repository_urls 2
         (Cursor ([doc_a_old] ++ doc_a_new :: [doc_a_bare]) None)
       = (Returned idx, [])
       /\ extract_urls 2 (VList [VStr "https://new.com"]) = Ok urls
       /\ idx !! repo_name doc_a_new = Some urls.
Proof.
  assert (Forall (shallow 2) ([doc_a_old] ++ doc_a_new :: [doc_a_bare]))
    as Hshallow by (repeat constructor; unfold shallow; cbn; lia).
  assert (Forall (fun d' => structure d' = None
                            \/ repo_name d' <> repo_name doc_a_new)
            [doc_a_bare]) as Hpost by (repeat constructor).
  split; [reflexivity|]. split; [exact Hshallow|]. split; [exact Hpost|].
  exact (last_structured_document_wins 2 [doc_a_old] doc_a_new [doc_a_bare]
           (VList [VStr "https://new.com"]) eq_refl Hshallow Hpost).
Defined.

(** C6, as stated, fails: the name of a document without a structure is a
    key of the index, here even with an empty list, when another document of
    that name has a structure. *)
Lemma skipped_document_name_is_key :
  structure doc_a_bare = None
  /\ exists idx,
       get_repository_urls 1
         (Cursor [Document (Some "a") (Some (VList [])); doc_a_bare] None)
       = (Returned idx, [])
       /\ idx !! repo_name doc_a_bare = Some [].
Proof.
  split; [reflexivity|]. eexists. split; [reflexivity|].
  vm_compute. reflexivity.
Qed.

(** C6, amended: a document without a structure is skipped: the call ends
    as it does on the other documents alone, and when none of those that
    carry its name has a structure, the name is not a key of the index. *)
Theorem document_without_structure_skipped frames pre d post fault :
  structure d = None ->
  get_repository_urls frames (Cursor (pre ++ d :: post) fault)
  = get_repository_urls frames (Cursor (pre ++ post) fault)
  /\ (Forall (fun d' => repo_name d' = repo_name d -> structure d' = None)
        (pre ++ post) ->
      forall idx printed,
        get_repository_urls frames (Cursor (pre ++ d :: post) fault)
        = (Returned idx, printed) ->
        idx !! repo_name d = None).
Proof.
  intros Hd. split.
  - by rewrite !get_repository_urls_cursor, index_documents_skip.
  - intros Hothers idx printed Hcall.
    destruct (get_repository_urls_returned _ _ _ _ _ Hcall) as [Hrun| ->];
      [|apply lookup_empty].
    apply Forall_app in Hothers as [Hpre Hpost].
    assert (forall ds,
              Forall (fun d' => repo_name d' = repo_name d
                                -> structure d' = None) ds ->
              Forall (fun d' => structure d' = None
                                \/ repo_name d' <> repo_name d) ds) as Hdec.
    { intros ds Hds. eapply Forall_impl; [exact Hds|]. intros d' Hd'.
      destruct (decide (repo_name d' = repo_name d)); auto. }
    assert (Forall (fun d' => structure d' = None
                              \/ repo_name d' <> repo_name d)
              (pre ++ d :: post)) as Hall.
    { apply Forall_app. split; [by apply Hdec|].
      apply Forall_cons. split; [by left | by apply Hdec]. }
    rewrite (index_documents_untouched _ _ _ _ Hall _ _ Hrun).
    apply lookup_empty.
Qed.

Lemma document_without_structure_skipped_witness :
  structure doc_b_bare = None
  /\ get_repository_urls 1 (Cursor ([doc_a_old] ++ doc_b_bare :: []) None)
     = get_repository_urls 1 (Cursor ([doc_a_old] ++ []) None)
  /\ (Forall (fun d' => repo_name d' = repo_name doc_b_bare
                        -> structure d' = None) ([doc_a_old] ++ []) ->
      forall idx printed,
        get_repository_urls 1 (Cursor ([doc_a_old] ++ doc_b_bare :: []) None)
        = (Returned idx, printed) ->
        idx !! repo_name doc_b_bare = None).
Proof.
  split; [reflexivity|].
  exact (document_without_structure_skipped 1 [doc_a_old] doc_b_bare [] None
           eq_refl).
Defined.

(** C10: when every structure fits the frame budget and the cursor does not
    fail, the name of every document that has a structure is a key of the
    returned index, the name being ["Unknown"] for a document without a
    [repo] field; and when the structures of the documents of that name
    hold no URL, the key is mapped to the empty list. *)
Theorem structured_document_is_indexed frames docs d s :
  d ∈ docs ->
  structure d = Some s ->
  Forall (shallow frames) docs ->
  exists idx,
    get_repository_urls frames (Cursor docs None) = (Returned idx, [])
    /\ is_Some (idx !! default "Unknown" (repo d))
    /\ ((forall d' s', d' ∈ docs -> repo_name d' = repo_name d ->
                       structure d' = Some s' ->
                       extract_urls frames s' = Ok []) ->
        idx !! default "Unknown" (repo d) = Some []).
Proof.
  intros Hin Hs Hshallow.
  destruct (index_documents_shallow _ _ Hshallow ∅) as [idx Hrun].
  exists idx. split; [by rewrite get_repository_urls_cursor, Hrun|].
  assert (is_Some (idx !! repo_name d)) as Hkey.
  { apply (index_documents_adds_key frames docs None d Hin) with ∅;
      [by rewrite Hs | done]. }
  split; [exact Hkey|]. intros Hnone. destruct Hkey as [urls Hurls].
  fold (repo_name d). rewrite Hurls.
  destruct (index_documents_provenance _ _ _ _ _ _ _ Hrun Hurls)
    as [Hacc|(d' & Hd' & Hname & Hdoc)]; [by rewrite lookup_empty in Hacc|].
  unfold document_urls in Hdoc. destruct (structure d') as [s'|] eqn:Hs';
    [|discriminate].
  rewrite (Hnone d' s' Hd' Hname Hs') in Hdoc. congruence.
Qed.

Lemma structured_document_is_indexed_witness :
  doc_unnamed ∈ [doc_a_old; doc_unnamed]
  /\ structure doc_unnamed = Some (VDict [])
  /\ Forall (shallow 1) [doc_a_old; doc_unnamed]
  /\ exists idx,
       get_repository_urls 1 (Cursor [doc_a_old; doc_unnamed] None)
       = (Returned idx, [])
       /\ is_Some (idx !! default "Unknown" (repo doc_unnamed))
       /\ ((forall d' s', d' ∈ [doc_a_old; doc_unnamed] ->
                          repo_name d' = repo_name doc_unnamed ->
                          structure d' = Some s' ->
                          extract_urls 1 s' = Ok []) ->
           idx !! default "Unknown" (repo doc_unnamed) = Some []).
Proof.
  assert (doc_unnamed ∈ [doc_a_old; doc_unnamed]) as Hin
    by (apply list_elem_of_In; right; left; reflexivity).
  assert (Forall (shallow 1) [doc_a_old; doc_unnamed]) as Hshallow
    by (repeat constructor; unfold shallow; cbn; lia).
  split; [exact Hin|]. split; [reflexivity|]. split; [exact Hshallow|].
  exact (structured_document_is_indexed 1 [doc_a_old; doc_unnamed]
           doc_unnamed (VDict []) Hin eq_refl Hshallow).
Defined.

(** ** Further properties of [extract_urls] *)

Lemma levels_permutation ds ds' : ds ≡ₚ ds' -> levels ds = levels ds'.
Proof.
  induction 1 as [|d ds ds' _ IH|d d' ds|ds1 ds2 ds3 _ IH1 _ IH2].
  - reflexivity.
  - rewrite !levels_cons. by rewrite IH.
  - rewrite !levels_cons. lia.
  - congruence.
Qed.

Lemma levels_app ds ds' : levels (ds ++ ds') = Nat.max (levels ds) (levels ds').
Proof.
  induction ds as [|d ds IH]; [reflexivity|].
  cbn [app]. rewrite !levels_cons, IH. lia.
Qed.

Lemma extract_urls_list frames items :
  extract_urls frames (VList items)
  = if decide (levels (map nesting_depth items) < frames)
    then Ok (elements (⋃ (map url_set items))) else Raise RecursionError.
Proof. by rewrite extract_urls_spec. Qed.

(** X1: what a traversal adds does not depend on what the set holds
    already: started on any set, [collect_urls] returns the union of that
    set with what it returns on the empty set, and raises in the same
    cases. *)
Theorem collect_urls_accumulates frames item urls :
  collect_urls frames item urls
  = (found <- collect_urls frames item ∅ ;; Ok (found ∪ urls)).
Proof.
  rewrite !collect_urls_spec.
  destruct (decide (nesting_depth item < frames)); [|reflexivity].
  cbn [bind]. by rewrite union_empty_r_L.
Qed.

(** X2: the order of the elements of a list and of the entries of a dict
    has no influence on the URLs returned. *)
Theorem extract_urls_order_irrelevant frames items items' entries entries' :
  items ≡ₚ items' ->
  entries ≡ₚ entries' ->
  same_urls (extract_urls frames (VList items))
            (extract_urls frames (VList items'))
  /\ same_urls (extract_urls frames (VDict entries))
               (extract_urls frames (VDict entries')).
Proof.
  intros Hitems Hentries.
  assert (forall xs ys : list value, xs ≡ₚ ys ->
            same_urls (extract_urls frames (VList xs))
                      (extract_urls frames (VList ys))) as Hlist.
  { intros xs ys Hperm. rewrite !extract_urls_list.
    rewrite (levels_permutation _ (map nesting_depth ys))
      by (by apply fmap_Permutation).
    destruct (decide _); [|reflexivity]. cbn [same_urls].
    assert (⋃ (map url_set xs) = ⋃ (map url_set ys)) as ->; [|done].
    apply union_list_permutation_proper_L. by apply fmap_Permutation. }
  split; [by apply Hlist|].
  assert (forall es, extract_urls frames (VDict es)
                     = extract_urls frames (VList (dict_values es))) as Hdict.
  { intros es. rewrite !extract_urls_spec.
    by rewrite nesting_depth_dict, url_set_dict. }
  rewrite !Hdict. apply Hlist. unfold dict_values. by apply fmap_Permutation.
Qed.

Lemma extract_urls_order_irrelevant_witness :
  [VStr "https://a.com"; VStr "https://b.com"]
    ≡ₚ [VStr "https://b.com"; VStr "https://a.com"]
  /\ [("x", VStr "https://a.com"); ("y", VInt 1)]
       ≡ₚ [("y", VInt 1); ("x", VStr "https://a.com")]
  /\ same_urls
       (extract_urls 2 (VList [VStr "https://a.com"; VStr "https://b.com"]))
       (extract_urls 2 (VList [VStr "https://b.com"; VStr "https://a.com"]))
  /\ same_urls
       (extract_urls 2 (VDict [("x", VStr "https://a.com"); ("y", VInt 1)]))
       (extract_urls 2 (VDict [("y", VInt 1); ("x", VStr "https://a.com")])).
Proof.
  assert ([VStr "https://a.com"; VStr "https://b.com"]
            ≡ₚ [VStr "https://b.com"; VStr "https://a.com"]) as H1
    by apply perm_swap.
  assert ([("x", VStr "https://a.com"); ("y", VInt 1)]
            ≡ₚ [("y", VInt 1); ("x", VStr "https://a.com")]) as H2
    by apply perm_swap.
  split; [exact H1|]. split; [exact H2|].
  exact (extract_urls_order_irrelevant 2 _ _ _ _ H1 H2).
Defined.

(** X3: the URLs of a concatenation are those of its two parts: when
    [extract_urls] returns on [xs + ys], it returns on [xs] and on [ys],
    and a string is in the first list exactly when it is in one of the
    other two. *)
Theorem extract_urls_concatenation frames xs ys l :
  extract_urls frames (VList (xs ++ ys)) = Ok l ->
  exists l1 l2,
    extract_urls frames (VList xs) = Ok l1
    /\ extract_urls frames (VList ys) = Ok l2
    /\ (forall u, u ∈ l <-> u ∈ l1 \/ u ∈ l2).
Proof.
  rewrite !extract_urls_list, !map_app, levels_app.
  destruct (decide (_ < frames)) as [Hd|]; [|done]. intros [= <-].
  exists (elements (⋃ (map url_set xs))), (elements (⋃ (map url_set ys))).
  rewrite !decide_True by lia. split; [done|]. split; [done|].
  intros u. rewrite !elem_of_elements, union_list_app_L. apply elem_of_union.
Qed.

Lemma extract_urls_concatenation_witness :
  extract_urls 2 (VList ([VStr "https://a.com"; VInt 3]
                           ++ [VStr "https://b.com"]))
  = Ok ["https://a.com"; "https://b.com"]
  /\ exists l1 l2,
       extract_urls 2 (VList [VStr "https://a.com"; VInt 3]) = Ok l1
       /\ extract_urls 2 (VList [VStr "https://b.com"]) = Ok l2
       /\ (forall u, u ∈ ["https://a.com"; "https://b.com"]
                     <-> u ∈ l1 \/ u ∈ l2).
Proof.
  assert (extract_urls 2 (VList ([VStr "https://a.com"; VInt 3]
                                   ++ [VStr "https://b.com"]))
          = Ok ["https://a.com"; "https://b.com"]) as H
    by (vm_compute; reflexivity).
  split; [exact H|].
  exact (extract_urls_concatenation 2 _ _ _ H).
Defined.

(** ** Further properties of [get_repository_urls] *)



(** When every structure fits, a fault of the cursor is what ends the
    loop. *)
Lemma index_documents_faulty frames docs e :
  Forall (shallow frames) docs ->
  forall acc, index_documents frames docs (Some e) acc = Raise e.
Proof.
  induction 1 as [|d docs Hd _ IH]; intros acc; [reflexivity|].
  cbn [index_documents]. unfold shallow in Hd.
  destruct (structure d) as [s|]; [|apply IH].
  rewrite (extract_urls_shallow _ _ Hd). cbn [bind]. apply IH.
Qed.


(** The loop started on a dict that has entries already gives what it gives
    on the empty dict, laid over those entries. *)
Lemma index_documents_over frames docs fault :
  forall acc,
    index_documents frames docs fault acc
    = (idx <- index_documents frames docs fault ∅ ;; Ok (idx ∪ acc)).
Proof.
  induction docs as [|d docs IH]; intros acc.
  - cbn [index_documents]. destruct fault; [done|].
    cbn [bind]. by rewrite (left_id_L ∅ (∪)).
  - cbn [index_documents]. destruct (structure d) as [s|]; [|apply IH].
    destruct (extract_urls frames s) as [urls|e]; [|done]. cbn [bind].
    rewrite (IH (<[repo_name d:=urls]> acc)),
      (IH (<[repo_name d:=urls]> ∅)).
    destruct (index_documents frames docs fault ∅) as [idx|e]; [|done].
    cbn [bind]. f_equal.
    rewrite (insert_union_singleton_l acc), insert_empty.
    by rewrite !(assoc_L (∪)).
Qed.


Lemma document_urls_structure frames d urls :
  document_urls frames d = Some urls ->
  exists s, structure d = Some s /\ extract_urls frames s = Ok urls.
Proof.
  unfold document_urls. destruct (structure d) as [s|]; [|done].
  destruct (extract_urls frames s) as [l|] eqn:Hl; [|done].
  intros [= <-]. by exists s.
Qed.


(** X4: an exception leaves [get_repository_urls] only when the
    constructor of the client raised; it is then the [UnboundLocalError]
    of the [finally] clause, after the line of the handler was printed.
    For a fault of the query or of the cursor the call returns. *)
Theorem get_repository_urls_escape frames db e printed :
  get_repository_urls frames db = (Escaped e, printed) ->
  exists e0,
    db = ConnectRaises e0
    /\ e = UnboundLocalError "client"
    /\ printed = ["Error retrieving repository URLs: " +:+ exn_str e0].
Proof.
  destruct db as [e0|e0|docs fault].
  - intros [= <- <-]. by exists e0.
  - intros [=].
  - rewrite get_repository_urls_cursor.
    destruct (index_documents frames docs fault ∅); intros [=].
Qed.

Lemma get_repository_urls_escape_witness :
  get_repository_urls 1 (ConnectRaises (PyMongoError "Invalid URI"))
  = (Escaped (UnboundLocalError "client"),
     ["Error retrieving repository URLs: Invalid URI"])
  /\ exists e0,
       ConnectRaises (PyMongoError "Invalid URI") = ConnectRaises e0
       /\ UnboundLocalError "client" = UnboundLocalError "client"
       /\ ["Error retrieving repository URLs: Invalid URI"]
          = ["Error retrieving repository URLs: " +:+ exn_str e0].
Proof.
  split; [reflexivity|].
  exact (get_repository_urls_escape 1
           (ConnectRaises (PyMongoError "Invalid URI")) _ _ eq_refl).
Defined.



(** X6: when the cursor raises after it has yielded documents, the entries
    made from those documents are dropped: the call returns the empty dict
    and prints the message of that exception. *)
Theorem get_repository_urls_cursor_fault frames docs e :
  Forall (shallow frames) docs ->
  get_repository_urls frames (Cursor docs (Some e))
  = (Returned ∅, ["Error retrieving repository URLs: " +:+ exn_str e]).
Proof.
  intros Hall. rewrite get_repository_urls_cursor.
  by rewrite index_documents_faulty.
Qed.

Lemma get_repository_urls_cursor_fault_witness :
  Forall (shallow 2) [doc_a_old; doc_b]
  /\ get_repository_urls 2
       (Cursor [doc_a_old; doc_b] (Some (PyMongoError "connection closed")))
     = (Returned ∅, ["Error retrieving repository URLs: connection closed"]).
Proof.
  assert (Forall (shallow 2) [doc_a_old; doc_b]) as Hall
    by (repeat constructor; unfold shallow; cbn; lia).
  split; [exact Hall|].
  exact (get_repository_urls_cursor_fault 2 _
           (PyMongoError "connection closed") Hall).
Defined.

(** X7: every entry of a returned index comes from a document: its key is
    the name of a document that has a structure, and its list is what
    [extract_urls] returns for that structure, so it has no duplicates and
    holds only strings that start with ["https://"]. *)
Theorem returned_index_entries frames docs fault idx printed n urls :
  get_repository_urls frames (Cursor docs fault) = (Returned idx, printed) ->
  idx !! n = Some urls ->
  (exists d s, d ∈ docs /\ repo_name d = n /\ structure d = Some s
               /\ extract_urls frames s = Ok urls)
  /\ NoDup urls
  /\ Forall (fun u => startswith u url_prefix = true) urls.
Proof.
  intros Hcall Hn.
  destruct (get_repository_urls_returned _ _ _ _ _ Hcall) as [Hrun| ->];
    [|by rewrite lookup_empty in Hn].
  destruct (index_documents_provenance _ _ _ _ _ _ _ Hrun Hn)
    as [Hacc|(d & Hd & Hname & Hurls)]; [by rewrite lookup_empty in Hacc|].
  destruct (document_urls_structure _ _ _ Hurls) as (s & Hs & Hl).
  split; [by exists d, s|].
  rewrite extract_urls_spec in Hl. destruct (decide _); [|done].
  injection Hl as <-. split; [apply NoDup_elements|].
  apply Forall_forall. intros u Hu.
  by apply elem_of_elements, url_set_reachable in Hu as [_ Hu].
Qed.

Lemma returned_index_entries_witness :
  get_repository_urls 2 (Cursor [doc_a_old; doc_b] None)
  = (Returned (<["b" := ["https://b.com"]]>
                 (<["a" := ["https://old.com"]]> ∅)), [])
  /\ (<["b" := ["https://b.com"]]> (<["a" := ["https://old.com"]]> ∅)
      : gmap string (list string)) !! "b" = Some ["https://b.com"]
  /\ (exists d s, d ∈ [doc_a_old; doc_b] /\ repo_name d = "b"
                  /\ structure d = Some s
                  /\ extract_urls 2 s = Ok ["https://b.com"])
  /\ NoDup ["https://b.com"]
  /\ Forall (fun u => startswith u url_prefix = true) ["https://b.com"].
Proof.
  assert (get_repository_urls 2 (Cursor [doc_a_old; doc_b] None)
          = (Returned (<["b" := ["https://b.com"]]>
                         (<["a" := ["https://old.com"]]> ∅)), [])) as Hcall
    by reflexivity.
  assert ((<["b" := ["https://b.com"]]> (<["a" := ["https://old.com"]]> ∅)
           : gmap string (list string)) !! "b" = Some ["https://b.com"])
    as Hn by reflexivity.
  split; [exact Hcall|]. split; [exact Hn|].
  exact (returned_index_entries 2 _ None _ _ "b" _ Hcall Hn).
Defined.

(** X8: on a run without fault, the keys of the returned index are exactly
    the names of the documents that have a structure; in particular the
    index is empty exactly when no document has one. *)
Theorem returned_index_keys frames docs :
  Forall (shallow frames) docs ->
  exists idx,
    get_repository_urls frames (Cursor docs None) = (Returned idx, [])
    /\ (forall n, is_Some (idx !! n) <-> n ∈ indexed_names docs)
    /\ (idx = ∅ <-> Forall (fun d => structure d = None) docs).
Proof.
  intros Hall.
  destruct (index_documents_shallow _ _ Hall ∅) as [idx Hrun].
  exists idx. split; [by rewrite get_repository_urls_cursor, Hrun|].
  assert (forall n, is_Some (idx !! n) <-> n ∈ indexed_names docs) as Hkeys.
  { intros n. unfold indexed_names. rewrite list_elem_of_fmap. split.
    - intros [urls Hn].
      destruct (index_documents_provenance _ _ _ _ _ _ _ Hrun Hn)
        as [Hacc|(d & Hd & Hname & Hurls)];
        [by rewrite lookup_empty in Hacc|].
      destruct (document_urls_structure _ _ _ Hurls) as (s & Hs & _).
      exists d. split; [done|]. apply list_elem_of_filter. by rewrite Hs.
    - intros (d & -> & Hd). apply list_elem_of_filter in Hd as [Hs Hd].
      by apply (index_documents_adds_key frames docs None d Hd Hs ∅). }
  split; [exact Hkeys|]. split.
  - intros ->. apply Forall_forall. intros d Hd.
    destruct (structure d) as [s|] eqn:Hs; [|done]. exfalso.
    assert (is_Some ((∅ : gmap string (list string)) !! repo_name d)) as [? H].
    { apply Hkeys. unfold indexed_names. apply list_elem_of_fmap.
      exists d. split; [done|]. apply list_elem_of_filter. by rewrite Hs. }
    by rewrite lookup_empty in H.
  - intros Hnone. apply map_eq. intros n. rewrite lookup_empty.
    apply eq_None_not_Some. rewrite Hkeys. unfold indexed_names.
    rewrite list_elem_of_fmap. intros (d & _ & Hd).
    apply list_elem_of_filter in Hd as [[s Hs] Hd].
    rewrite Forall_forall in Hnone. by rewrite (Hnone d Hd) in Hs.
Qed.

Lemma returned_index_keys_witness :
  Forall (shallow 2) [doc_a_old; doc_b_bare; doc_unnamed]
  /\ exists idx,
       get_repository_urls 2
         (Cursor [doc_a_old; doc_b_bare; doc_unnamed] None)
       = (Returned idx, [])
       /\ (forall n, is_Some (idx !! n)
                     <-> n ∈ indexed_names
                               [doc_a_old; doc_b_bare; doc_unnamed])
       /\ (idx = ∅ <-> Forall (fun d => structure d = None)
                         [doc_a_old; doc_b_bare; doc_unnamed]).
Proof.
  assert (Forall (shallow 2) [doc_a_old; doc_b_bare; doc_unnamed]) as Hall
    by (repeat constructor; unfold shallow; cbn; lia).
  split; [exact Hall|].
  exact (returned_index_keys 2 _ Hall).
Defined.

(** X9: indexing two batches of documents one after the other gives the
    two indexes laid over each other, the entry of the later batch standing
    where both have one. *)
Theorem index_of_concatenation frames pre post :
  Forall (shallow frames) (pre ++ post) ->
  exists i1 i2,
    get_repository_urls frames (Cursor pre None) = (Returned i1, [])
    /\ get_repository_urls frames (Cursor post None) = (Returned i2, [])
    /\ get_repository_urls frames (Cursor (pre ++ post) None)
       = (Returned (i2 ∪ i1), []).
Proof.
  intros Hall. apply Forall_app in Hall as [Hpre Hpost].
  destruct (index_documents_shallow _ _ Hpre ∅) as [i1 H1].
  destruct (index_documents_shallow _ _ Hpost ∅) as [i2 H2].
  exists i1, i2. rewrite !get_repository_urls_cursor, H1, H2.
  split; [done|]. split; [done|].
  rewrite index_documents_app, H1. cbn [bind].
  by rewrite index_documents_over, H2.
Qed.

Lemma index_of_concatenation_witness :
  Forall (shallow 2) ([doc_a_old; doc_b] ++ [doc_a_new])
  /\ exists i1 i2,
       get_repository_urls 2 (Cursor [doc_a_old; doc_b] None)
       = (Returned i1, [])
       /\ get_repository_urls 2 (Cursor [doc_a_new] None) = (Returned i2, [])
       /\ get_repository_urls 2
            (Cursor ([doc_a_old; doc_b] ++ [doc_a_new]) None)
          = (Returned (i2 ∪ i1), []).
Proof.
  assert (Forall (shallow 2) ([doc_a_old; doc_b] ++ [doc_a_new])) as Hall
    by (repeat constructor; unfold shallow; cbn; lia).
  split; [exact Hall|].
  exact (index_of_concatenation 2 _ _ Hall).
Defined.



(** ** The ordered dict and the index *)

Lemma dict_setitem_to_map k v items :
  (list_to_map (dict_setitem k v items) : gmap string (list string))
  = <[k := v]> (list_to_map items).
Proof.
  induction items as [|[k' v'] items IH]; [reflexivity|].
  cbn [dict_setitem]. destruct (decide (k' = k)) as [->|Hk].
  - cbn [list_to_map foldr]. by rewrite insert_insert_eq.
  - cbn [list_to_map foldr] in *. rewrite IH. by apply insert_insert_ne.
Qed.

Lemma dict_setitem_keys k v items :
  map fst (dict_setitem k v items)
  = if decide (k ∈ map fst items) then map fst items
    else (map fst items ++ [k])%list.
Proof.
  induction items as [|[k' v'] items IH].
  - cbn. rewrite decide_False; [done | apply not_elem_of_nil].
  - cbn [dict_setitem map fst]. destruct (decide (k' = k)) as [->|Hk].
    + cbn [map fst]. rewrite decide_True; [done | by left].
    + cbn [map fst app]. rewrite IH.
      destruct (decide (k ∈ map fst items)) as [Hin|Hin].
      * rewrite decide_True; [done | by right].
      * rewrite decide_False; [done|].
        intros [?|?]%elem_of_cons; congruence.
Qed.

Lemma dict_setitem_NoDup k v items :
  NoDup (map fst items) -> NoDup (map fst (dict_setitem k v items)).
Proof.
  intros Hnd. rewrite dict_setitem_keys. case_decide as Hin; [done|].
  apply NoDup_app. split; [done|]. split; [|apply NoDup_singleton].
  intros x Hx ->%list_elem_of_singleton. done.
Qed.

(** The two loops walk together: the mapping of the ordered dict is the
    index. *)
Lemma index_items_refines frames docs fault :
  forall items,
    index_documents frames docs fault (list_to_map items)
    = (r <- index_items frames docs fault items ;; Ok (list_to_map r)).
Proof.
  induction docs as [|d docs IH]; intros items.
  - cbn. by destruct fault.
  - cbn [index_documents index_items].
    destruct (structure d) as [s|]; [|apply IH].
    destruct (extract_urls frames s) as [urls|e]; [|done]. cbn [bind].
    by rewrite <- IH, dict_setitem_to_map.
Qed.

Lemma index_items_NoDup frames docs fault :
  forall acc items,
    NoDup (map fst acc) ->
    index_items frames docs fault acc = Ok items -> NoDup (map fst items).
Proof.
  induction docs as [|d docs IH]; intros acc items Hnd Hrun.
  - cbn in Hrun. destruct fault; congruence.
  - cbn [index_items] in Hrun. destruct (structure d) as [s|];
      [|by apply (IH acc)].
    destruct (extract_urls frames s) as [urls|e]; [|done].
    cbn [bind] in Hrun. apply (IH _ _ (dict_setitem_NoDup _ _ _ Hnd) Hrun).
Qed.

Lemma filter_not_in_snoc (ks : list string) n (l : list string) :
  filter (fun m => m ∉ (ks ++ [n])%list) l
  = filter (fun m => m ∉ ks) (filter (fun m => m <> n) l).
Proof.
  rewrite list_filter_filter. apply list_filter_iff. intros m.
  rewrite elem_of_app, list_elem_of_singleton. tauto.
Qed.

Lemma filter_not_in_known (ks : list string) n (l : list string) :
  n ∈ ks ->
  filter (fun m => m ∉ ks) l
  = filter (fun m => m ∉ ks) (filter (fun m => m <> n) l).
Proof.
  intros Hn. rewrite list_filter_filter. apply list_filter_iff. intros m.
  split; [|tauto]. intros Hm. split; [done|]. by intros ->.
Qed.

Lemma indexed_names_cons d docs :
  indexed_names (d :: docs)
  = match structure d with
    | Some _ => repo_name d :: indexed_names docs
    | None => indexed_names docs
    end.
Proof.
  unfold indexed_names. destruct (structure d) as [s|] eqn:Hs.
  - rewrite filter_cons_True by (by rewrite Hs). reflexivity.
  - rewrite filter_cons_False by (rewrite Hs; by intros [? ?]). reflexivity.
Qed.

(** The keys of the ordered dict after the loop: those it had, then the
    new names in the order of their first document. *)
Lemma index_items_keys frames docs fault :
  forall acc items,
    index_items frames docs fault acc = Ok items ->
    map fst items
    = (map fst acc
       ++ filter (fun n => n ∉ map fst acc)
            (first_occurrences (indexed_names docs)))%list.
Proof.
  induction docs as [|d docs IH]; intros acc items Hrun.
  - cbn in Hrun. destruct fault; [done|]. injection Hrun as <-.
    cbn. by rewrite app_nil_r.
  - cbn [index_items] in Hrun. rewrite indexed_names_cons.
    destruct (structure d) as [s|]; [|by apply IH].
    destruct (extract_urls frames s) as [urls|e]; [|done].
    cbn [bind] in Hrun. rewrite (IH _ _ Hrun), dict_setitem_keys.
    cbn [first_occurrences].
    destruct (decide (repo_name d ∈ map fst acc)) as [Hin|Hin].
    + rewrite filter_cons_False by tauto.
      by rewrite <- filter_not_in_known.
    + rewrite filter_cons_True by done.
      rewrite <- (assoc_L (++)). cbn [app].
      by rewrite filter_not_in_snoc.
Qed.

Lemma get_repository_urls_ordered_cursor frames docs fault :
  get_repository_urls_ordered frames (Cursor docs fault)
  = match index_items frames docs fault [] with
    | Ok items => (Returns items, [])
    | Raise e =>
        (Returns [], ["Error retrieving repository URLs: " +:+ exn_str e])
    end.
Proof.
  unfold get_repository_urls_ordered.
  by destruct (index_items frames docs fault []).
Qed.

(** X11: the dict that [get_repository_urls] returns lists each repository
    once, and the mapping it stands for is the index of the properties
    above: the ordered view of the call and the index agree on every
    outcome and print the same lines. *)
Theorem get_repository_urls_ordered_view frames db :
  get_repository_urls frames db
  = (match fst (get_repository_urls_ordered frames db) with
     | Returns items => Returned (list_to_map items)
     | Leaves e => Escaped e
     end, snd (get_repository_urls_ordered frames db))
  /\ (forall items,
        fst (get_repository_urls_ordered frames db) = Returns items ->
        NoDup (map fst items)).
Proof.
  destruct db as [e|e|docs fault].
  - split; [reflexivity | intros items [=]].
  - split; [reflexivity|]. intros items [= <-]. apply NoDup_nil; exact I.
  - rewrite get_repository_urls_cursor, get_repository_urls_ordered_cursor.
    pose proof (index_items_refines frames docs fault []) as Href.
    pose proof (index_items_NoDup frames docs fault []) as Hnd.
    cbn [list_to_map foldr] in Href. rewrite Href.
    destruct (index_items frames docs fault []) as [items|e]; cbn.
    + split; [done|]. intros ? [= <-]. apply (Hnd items); [|done].
      apply NoDup_nil; exact I.
    + split; [done|]. intros ? [= <-]. apply NoDup_nil; exact I.
Qed.

(** X12: on a run without fault the returned dict lists the repositories
    in the order in which the cursor first yields a document with a
    structure for each of them; a later document of the same name changes
    the list of the repository, not its place. *)
Theorem returned_dict_order frames docs :
  Forall (shallow frames) docs ->
  exists items,
    get_repository_urls_ordered frames (Cursor docs None)
    = (Returns items, [])
    /\ map fst items = first_occurrences (indexed_names docs).
Proof.
  intros Hall.
  destruct (index_documents_shallow _ _ Hall ∅) as [idx Hrun].
  pose proof (index_items_refines frames docs None []) as Href.
  cbn [list_to_map foldr] in Href. rewrite Hrun in Href.
  rewrite get_repository_urls_ordered_cursor.
  destruct (index_items frames docs None []) as [items|e] eqn:Hitems;
    [|done].
  exists items. split; [done|].
  rewrite (index_items_keys _ _ _ _ _ Hitems). cbn [map app].
  induction (first_occurrences (indexed_names docs)) as [|n l IH];
    [done|].
  rewrite filter_cons_True by apply not_elem_of_nil. by rewrite IH.
Qed.

Lemma returned_dict_order_witness :
  Forall (shallow 2) [doc_b; doc_a_old; doc_b_bare; doc_a_new; doc_c]
  /\ exists items,
       get_repository_urls_ordered 2
         (Cursor [doc_b; doc_a_old; doc_b_bare; doc_a_new; doc_c] None)
       = (Returns items, [])
       /\ map fst items
          = first_occurrences
              (indexed_names
                 [doc_b; doc_a_old; doc_b_bare; doc_a_new; doc_c]).
Proof.
  assert (Forall (shallow 2)
            [doc_b; doc_a_old; doc_b_bare; doc_a_new; doc_c]) as Hall
    by (repeat constructor; unfold shallow; cbn; lia).
  split; [exact Hall|].
  exact (returned_dict_order 2 _ Hall).
Defined.

(** The run of the witness: ["b"] comes first, and ["a"], overwritten by
    its second document, stays before ["c"]. *)
Example returned_dict_order_sample :
  get_repository_urls_ordered 2
    (Cursor [doc_b; doc_a_old; doc_b_bare; doc_a_new; doc_c] None)
  = (Returns [("b", ["https://b.com"]); ("a", ["https://new.com"]);
              ("c", ["https://c.com"])], []).
Proof. vm_compute. reflexivity. Qed.

(** ** [save_urls_to_file] *)

Lemma file_write_after text f : file_write text f = after_writes [text] f.
Proof.
  unfold file_write, after_writes. destruct f as [ws [[|n]|]]; cbn [budget written].
  - rewrite decide_False by (cbn; lia). by rewrite take_0, app_nil_r.
  - rewrite decide_True by (cbn; lia). cbn [length]. do 3 f_equal. lia.
  - reflexivity.
Qed.

Lemma after_writes_nil f : after_writes [] f = (true, f).
Proof.
  unfold after_writes. destruct f as [ws [n|]]; cbn [budget written].
  - rewrite decide_True by (cbn; lia). cbn [length].
    by rewrite app_nil_r, Nat.sub_0_r.
  - by rewrite app_nil_r.
Qed.

Lemma after_writes_app ts ts' f :
  and_then (after_writes ts f) (after_writes ts') = after_writes (ts ++ ts') f.
Proof.
  unfold and_then, after_writes. destruct f as [ws [n|]]; cbn [budget written].
  - rewrite length_app. destruct (decide (length ts <= n)) as [Hts|Hts].
    + cbn [fst snd budget written].
      destruct (decide (length ts' <= n - length ts)) as [Hts'|Hts'].
      * rewrite decide_True by lia. rewrite <- (assoc_L (++)).
        do 3 f_equal. lia.
      * rewrite decide_False by lia. rewrite <- (assoc_L (++)).
        rewrite take_app_ge by lia. reflexivity.
    + cbn [fst snd]. rewrite decide_False by lia.
      rewrite take_app_le by lia. reflexivity.
  - cbn [fst snd budget written]. by rewrite <- (assoc_L (++)).
Qed.

Lemma after_writes_cons t ts f :
  after_writes (t :: ts) f = and_then (file_write t f) (after_writes ts).
Proof. rewrite file_write_after. apply (eq_sym (after_writes_app [t] ts f)). Qed.

Lemma and_then_ext r k k' :
  (forall f, k f = k' f) -> and_then r k = and_then r k'.
Proof. intros H. unfold and_then. destruct (fst r); [apply H | done]. Qed.

Lemma write_urls_after urls f :
  write_urls urls f
  = after_writes (map (fun url => "- " +:+ url +:+ newline) urls) f.
Proof.
  revert f. induction urls as [|url urls IH]; intros f.
  - cbn [write_urls map]. by rewrite after_writes_nil.
  - cbn [write_urls map]. rewrite after_writes_cons.
    by apply and_then_ext.
Qed.

Lemma write_report_after items f :
  write_report items f = after_writes (report_texts items) f.
Proof.
  revert f. induction items as [|[repo urls] items IH]; intros f.
  - cbn [write_report report_texts]. by rewrite after_writes_nil.
  - cbn [write_report report_texts console_lines].
    rewrite app_nil_r. cbn [map]. rewrite map_map.
    change (("Repository: " +:+ repo) +:+ newline)
      with ("Repository: " +:+ repo +:+ newline).
    change (fun x : string => ("- " +:+ x) +:+ newline)
      with (fun x : string => "- " +:+ x +:+ newline).
    cbn [app]. rewrite after_writes_cons. apply and_then_ext. intros f1.
    rewrite <- after_writes_app, write_urls_after.
    apply and_then_ext. intros f2.
    rewrite after_writes_cons. by apply and_then_ext.
Qed.

(** X13: on a disk that does not fail, the file receives, repository after
    repository in the order of the dict, the lines the console shows for
    the repository, each ended by a line feed, and then an empty line; the
    one line printed names the file. *)
Theorem save_urls_to_file_writable items output_file :
  save_urls_to_file Writable items output_file
  = (Some (report_texts items), ["URLs saved to " +:+ output_file]).
Proof.
  unfold save_urls_to_file. cbn [open_for_writing].
  rewrite write_report_after. reflexivity.
Qed.

(** X14: when the file opens and a call of [f.write] raises, no exception
    leaves the function: the file keeps the texts written before that call,
    a proper prefix of the report, and the one line printed is the error
    message.  When the fault lies beyond the last call, the report is
    complete. *)
Theorem save_urls_to_file_write_fault n msg items output_file :
  save_urls_to_file (WriteRaises n msg) items output_file
  = if decide (length (report_texts items) <= n)
    then (Some (report_texts items), ["URLs saved to " +:+ output_file])
    else (Some (take n (report_texts items)),
          ["Error saving URLs to file: " +:+ msg]).
Proof.
  unfold save_urls_to_file. cbn [open_for_writing disk_message].
  rewrite write_report_after. unfold after_writes. cbn [budget written].
  by destruct (decide (length (report_texts items) <= n)).
Qed.

(** The report of [two_repositories], and what a disk that fails at the
    fifth call leaves of it. *)
Example save_urls_to_file_sample :
  save_urls_to_file Writable two_repositories "out.txt"
  = (Some ["Repository: a" +:+ newline; "- https://a.com/1" +:+ newline;
           "- https://a.com/2" +:+ newline; newline;
           "Repository: b" +:+ newline; "- https://b.com" +:+ newline;
           newline],
     ["URLs saved to out.txt"])
  /\ save_urls_to_file (WriteRaises 4 "No space left on device")
       two_repositories "out.txt"
     = (Some ["Repository: a" +:+ newline; "- https://a.com/1" +:+ newline;
              "- https://a.com/2" +:+ newline; newline],
        ["Error saving URLs to file: No space left on device"]).
Proof. split; reflexivity. Qed.

(** ** [main] *)

Lemma index_items_first_occurrences frames docs fault items :
  index_items frames docs fault [] = Ok items ->
  map fst items = first_occurrences (indexed_names docs).
Proof.
  intros Hrun. rewrite (index_items_keys _ _ _ _ _ Hrun). cbn [map app].
  induction (first_occurrences (indexed_names docs)) as [|n l IH];
    [done|].
  rewrite filter_cons_True by apply not_elem_of_nil. by rewrite IH.
Qed.


Lemma index_items_shallow frames docs :
  Forall (shallow frames) docs ->
  exists items, index_items frames docs None [] = Ok items.
Proof.
  intros Hall. destruct (index_documents_shallow _ _ Hall ∅) as [idx Hrun].
  pose proof (index_items_refines frames docs None []) as Href.
  cbn [list_to_map foldr] in Href. rewrite Hrun in Href.
  destruct (index_items frames docs None []) as [items|e]; [|done].
  by exists items.
Qed.



(** X16: a run of [main] ends with an uncaught exception exactly when the
    variable is set and the constructor of the client raises; the exception
    is the [UnboundLocalError] of [get_repository_urls].  A missing
    variable, a fault of the query or of the cursor and a fault of the disk
    all end the run without one. *)
Theorem main_uncaught frames mongodb_uri db dk e :
  uncaught (main frames mongodb_uri db dk) = Some e
  <-> is_set mongodb_uri = true
      /\ e = UnboundLocalError "client"
      /\ exists e0, db = ConnectRaises e0.
Proof.
  unfold main. split.
  - destruct (is_set mongodb_uri); [|done].
    destruct db as [e0|e0|docs fault].
    + intros [= <-]. split; [done|]. split; [done|]. by exists e0.
    + done.
    + rewrite get_repository_urls_ordered_cursor.
      destruct (index_items frames docs fault []) as [[|item items]|e1];
        [done| |done].
      by destruct (save_urls_to_file dk (item :: items) "repository_urls.txt").
  - intros (-> & -> & e0 & ->). reflexivity.
Qed.

(** X17: a run in which nothing fails: the console shows the repositories
    in the order of their first document, each with the URLs of its last
    document that has a structure, then the line that names the report;
    the report holds the same lines; and the dict printed is the index of
    [get_repository_urls]. *)
Theorem main_success frames mongodb_uri docs :
  is_set mongodb_uri = true ->
  Forall (shallow frames) docs ->
  Exists (fun d => is_Some (structure d)) docs ->
  exists items,
    main frames mongodb_uri (Cursor docs None) Writable
    = Run None
        (console_lines items ++ ["URLs saved to repository_urls.txt"])
        (Some (report_texts items))
    /\ map fst items = first_occurrences (indexed_names docs)
    /\ get_repository_urls frames (Cursor docs None)
       = (Returned (list_to_map items), []).
Proof.
  intros Hset Hall Hsome.
  destruct (index_items_shallow _ _ Hall) as [items Hrun].
  pose proof (index_items_first_occurrences _ _ _ _ Hrun) as Hkeys.
  exists items. split; [|split; [done|]].
  - unfold main. rewrite Hset, get_repository_urls_ordered_cursor, Hrun.
    destruct items as [|item items].
    + exfalso. apply Exists_exists in Hsome as (d & Hd & Hs).
      assert (repo_name d ∈ indexed_names docs) as Hn.
      { unfold indexed_names. apply list_elem_of_fmap. exists d.
        split; [done|]. by apply list_elem_of_filter. }
      destruct (indexed_names docs) as [|n ns]; [by apply elem_of_nil in Hn|].
      done.
    + unfold save_urls_to_file. cbn [open_for_writing].
      by rewrite write_report_after.
  - rewrite get_repository_urls_cursor.
    pose proof (index_items_refines frames docs None []) as Href.
    cbn [list_to_map foldr] in Href. by rewrite Href, Hrun.
Qed.

Lemma main_success_witness :
  is_set (Some "mongodb://localhost") = true
  /\ Forall (shallow 2) [doc_b; doc_a_old; doc_a_new]
  /\ Exists (fun d => is_Some (structure d)) [doc_b; doc_a_old; doc_a_new]
  /\ exists items,
       main 2 (Some "mongodb://localhost")
         (Cursor [doc_b; doc_a_old; doc_a_new] None) Writable
       = Run None
           (console_lines items ++ ["URLs saved to repository_urls.txt"])
           (Some (report_texts items))
       /\ map fst items
          = first_occurrences (indexed_names [doc_b; doc_a_old; doc_a_new])
       /\ get_repository_urls 2 (Cursor [doc_b; doc_a_old; doc_a_new] None)
          = (Returned (list_to_map items), []).
Proof.
  assert (Forall (shallow 2) [doc_b; doc_a_old; doc_a_new]) as Hall
    by (repeat constructor; unfold shallow; cbn; lia).
  assert (Exists (fun d => is_Some (structure d))
            [doc_b; doc_a_old; doc_a_new]) as Hsome
    by (apply Exists_cons_hd; by eexists).
  split; [reflexivity|]. split; [exact Hall|]. split; [exact Hsome|].
  exact (main_success 2 (Some "mongodb://localhost") _ eq_refl Hall Hsome).
Defined.

(** The run of the witness. *)
Example main_success_sample :
  main 2 (Some "mongodb://localhost")
    (Cursor [doc_b; doc_a_old; doc_a_new] None) Writable
  = Run None
      ["Repository: b"; "- https://b.com"; "Repository: a";
       "- https://new.com"; "URLs saved to repository_urls.txt"]
      (Some ["Repository: b" +:+ newline; "- https://b.com" +:+ newline;
             newline; "Repository: a" +:+ newline;
             "- https://new.com" +:+ newline; newline]).
Proof. vm_compute. reflexivity. Qed.

(** X18: when the cursor yields no document with a structure, an empty
    collection included, the run of [main] is silent: the returned dict is
    empty, so nothing is printed and the report file is not opened, whatever
    the disk would do. *)
Theorem main_nothing_indexed frames mongodb_uri docs dk :
  is_set mongodb_uri = true ->
  Forall (fun d => structure d = None) docs ->
  main frames mongodb_uri (Cursor docs None) dk = Run None [] None.
Proof.
  intros Hset Hnone. unfold main.
  rewrite Hset, get_repository_urls_ordered_cursor.
  assert (forall acc, index_items frames docs None acc = Ok acc) as ->;
    [|reflexivity].
  induction Hnone as [|d docs Hd _ IH]; intros acc; [reflexivity|].
  cbn [index_items]. rewrite Hd. apply IH.
Qed.

Lemma main_nothing_indexed_witness :
  is_set (Some "mongodb://localhost") = true
  /\ Forall (fun d => structure d = None) [doc_a_bare; doc_b_bare]
  /\ main 1 (Some "mongodb://localhost")
       (Cursor [doc_a_bare; doc_b_bare] None) (OpenRaises "Permission denied")
     = Run None [] None.
Proof.
  assert (Forall (fun d => structure d = None) [doc_a_bare; doc_b_bare])
    as Hnone by (repeat constructor).
  split; [reflexivity|]. split; [exact Hnone|].
  exact (main_nothing_indexed 1 (Some "mongodb://localhost") _
           (OpenRaises "Permission denied") eq_refl Hnone).
Defined.
